(** * better-returns: the [Option] and [Result] combinators

    A shallow embedding of [src/option.ts] and [src/result.ts].

    Both TypeScript types are discriminated unions over a string tag
    ([type]) with at most one payload ([value]); here each is an inductive
    type with one constructor per variant, and the tag is recovered by the
    [type] projection so that the tag tests read as in the source.

    Five combinators ([Option.map], [Option.then], [Result.map],
    [Result.map_error], [Result.then]) receive a function from the caller.
    Such a function is arbitrary JavaScript: it may change the caller's
    state and it may throw.  These combinators therefore live in a small
    state-and-exception monad, [JS], whose state also counts how often a
    caller-supplied function has been invoked.  Everything else is a pure
    function. *)

From Stdlib Require Import List String Bool.
Import ListNotations.

Set Implicit Arguments.

(* ================================================================= *)
(** ** The host: completions, the realm, caller-supplied functions *)

Section Host.

(** [W] is whatever state the caller's functions can reach, [X] is the
    type of thrown values. *)
Variables W X : Type.

(** How the evaluation of a call ends: with a value, or with a [throw]. *)
Inductive Completion (A : Type) : Type :=
  | Normal (a : A)
  | Throw (x : X).

(** The state a run goes through: the caller's state, and the number of
    invocations of caller-supplied functions so far. *)
Record Realm : Type := { calls : nat; world : W }.

(** A caller-supplied function of TypeScript type [(value: T) => U]. *)
Definition Callback (T U : Type) : Type := T -> W -> Completion U * W.

Definition JS (A : Type) : Type := Realm -> Completion A * Realm.

Definition ret {A} (a : A) : JS A := fun s => (Normal a, s).

Definition bind {A B} (m : JS A) (k : A -> JS B) : JS B :=
  fun s =>
    match m s with
    | (Normal a, s') => k a s'
    | (Throw _ x, s') => (Throw _ x, s')
    end.

(** The call expression [f(v)] for a caller-supplied [f]. *)
Definition invoke {T U} (f : Callback T U) (v : T) : JS U :=
  fun s =>
    let (r, w') := f v (world s) in
    (r, {| calls := S (calls s); world := w' |}).

(** A caller-supplied function that only computes. *)
Definition pure_fn {T U} (f : T -> U) : Callback T U :=
  fun v w => (Normal (f v), w).

(** A caller-supplied function that raises whenever it is called. *)
Definition raises {T U} (x : X) : Callback T U :=
  fun _ w => (Throw U x, w).

End Host.

Arguments Normal {X A} a.
Arguments Throw {X A} x.
Arguments ret {W X A} a _.
Arguments pure_fn {W X T U} f _ _.
Arguments raises {W X T U} x _ _.

Declare Scope js_scope.
Delimit Scope js_scope with js.
Notation "x <- m ;; k" := (bind m (fun x => k))
  (at level 61, m at next level, right associativity) : js_scope.
Open Scope js_scope.

(* ================================================================= *)
(** ** src/option.ts *)

Module Option.

(** [type Option<T> = Some<T> | None] *)
Inductive Option (T : Type) : Type :=
  | Some (value : T)
  | None.
Arguments Some {T} value.
Arguments None {T}.

(** The discriminant field. *)
Definition type {T} (option : Option T) : string :=
  match option with
  | Some _ => "some"
  | None => "none"
  end.

(** The factories are exported as [Some]/[None] by one revision of the
    module and as [some]/[none] by the other; the bodies are the same. *)
Definition some {T} (value : T) : Option T := Some value.
Definition none {T} : Option T := None.

Definition is_some {T} (option : Option T) : bool :=
  (type option =? "some")%string.

Definition is_none {T} (option : Option T) : bool :=
  negb (is_some option).

Definition unwrap {T} (option : Option T) (with_default : T) : T :=
  match option with
  | Some value => value
  | None => with_default
  end.

Section Combinators.
Variables W X : Type.

Definition map {T U} (option : Option T) (predicate : Callback W X T U)
    : JS W X (Option U) :=
    match option with
    | Some value => u <- invoke predicate value ;; ret (Some u)
    | None => ret None
    end.

(** [then] is a keyword of Rocq, hence the underscore. *)
Definition then_ {T U} (option : Option T)
      (apply : Callback W X T (Option U)) : JS W X (Option U) :=
    match option with
    | Some value => invoke apply value
    | None => ret None
    end.
End Combinators.

(** The reducer of [all]: both tags are tested, after which both payloads
    are in scope. *)
Definition all_step {T} (acc : Option (list T)) (option : Option T)
  : Option (list T) :=
  match option, acc with
  | Some v, Some vs => Some (vs ++ [v])
  | _, _ => None
  end.

Definition all {T} (list : Datatypes.list (Option T))
  : Option (Datatypes.list T) :=
  fold_left all_step list (Some []).

End Option.

(* ================================================================= *)
(** ** src/result.ts *)

Module Result.

(** [type Result<T, E> = Ok<T> | Err<E>] *)
Inductive Result (T E : Type) : Type :=
  | Ok (value : T)
  | Err (value : E).
Arguments Ok {T E} value.
Arguments Err {T E} value.

Definition type {T E} (result : Result T E) : string :=
  match result with
  | Ok _ => "ok"
  | Err _ => "err"
  end.

Definition ok {T E} (value : T) : Result T E := Ok value.
Definition err {T E} (value : E) : Result T E := Err value.

Definition is_ok {T E} (result : Result T E) : bool :=
  (type result =? "ok")%string.

Definition is_err {T E} (result : Result T E) : bool :=
  negb (is_ok result).

Definition unwrap {T E} (result : Result T E) (with_default : T) : T :=
  match result with
  | Ok value => value
  | Err _ => with_default
  end.

Definition unwrap_error {T E} (result : Result T E) (with_default : E) : E :=
  match result with
  | Err value => value
  | Ok _ => with_default
  end.

Section Combinators.
Variables W X : Type.

Definition map {T E U} (result : Result T E) (apply : Callback W X T U)
    : JS W X (Result U E) :=
    match result with
    | Ok value => u <- invoke apply value ;; ret (ok u)
    | Err e => ret (Err e)
    end.

Definition map_error {T E U} (result : Result T E)
      (apply : Callback W X E U) : JS W X (Result T U) :=
    match result with
    | Err value => u <- invoke apply value ;; ret (err u)
    | Ok v => ret (Ok v)
    end.

Definition then_ {T U E} (result : Result T E)
      (apply : Callback W X T (Result U E)) : JS W X (Result U E) :=
    match result with
    | Ok value => invoke apply value
    | Err e => ret (Err e)
    end.
End Combinators.

Definition replace {T E U} (result : Result T E) (value : U) : Result U E :=
  match result with
  | Ok _ => ok value
  | Err e => Err e
  end.

Definition replace_error {T E U} (result : Result T E) (value : U)
  : Result T U :=
  match result with
  | Err _ => err value
  | Ok v => Ok v
  end.

Definition or {T E} (left right : Result T E) : Result T E :=
  if is_ok left then left else right.

Definition all_step {T E} (acc : Result (list T) E) (result : Result T E)
  : Result (list T) E :=
  match acc with
  | Err _ => acc
  | Ok vs =>
      match result with
      | Err e => err e
      | Ok v => Ok (vs ++ [v])
      end
  end.

Definition all {T E} (list : Datatypes.list (Result T E))
  : Result (Datatypes.list T) E :=
  fold_left all_step list (Ok []).

End Result.


(* ================================================================= *)
(** ** The exported surface of the two modules *)

Section Exports.

(** Type parameters of the generic signatures, and the host's state and
    exception types. *)
Variables W X T U E : Type.

(** One constructor per exported function, carrying that function's
    arguments; the index is the function's return type. *)
Inductive Export : Type -> Type :=
  | option_some (value : T) : Export (Option.Option T)
  | option_none : Export (Option.Option T)
  | option_is_some (option : Option.Option T) : Export bool
  | option_is_none (option : Option.Option T) : Export bool
  | option_unwrap (option : Option.Option T) (with_default : T) : Export T
  | option_map (option : Option.Option T) (predicate : Callback W X T U)
      : Export (Option.Option U)
  | option_then (option : Option.Option T)
      (apply : Callback W X T (Option.Option U)) : Export (Option.Option U)
  | option_all (list : Datatypes.list (Option.Option T))
      : Export (Option.Option (Datatypes.list T))
  | result_ok (value : T) : Export (Result.Result T E)
  | result_err (value : E) : Export (Result.Result T E)
  | result_is_ok (result : Result.Result T E) : Export bool
  | result_is_err (result : Result.Result T E) : Export bool
  | result_unwrap (result : Result.Result T E) (with_default : T) : Export T
  | result_unwrap_error (result : Result.Result T E) (with_default : E)
      : Export E
  | result_map (result : Result.Result T E) (apply : Callback W X T U)
      : Export (Result.Result U E)
  | result_map_error (result : Result.Result T E) (apply : Callback W X E U)
      : Export (Result.Result T U)
  | result_replace (result : Result.Result T E) (value : U)
      : Export (Result.Result U E)
  | result_replace_error (result : Result.Result T E) (value : U)
      : Export (Result.Result T U)
  | result_or (left right : Result.Result T E) : Export (Result.Result T E)
  | result_then (result : Result.Result T E)
      (apply : Callback W X T (Result.Result U E))
      : Export (Result.Result U E)
  | result_all (list : Datatypes.list (Result.Result T E))
      : Export (Result.Result (Datatypes.list T) E).

(** Running a call of an exported function. *)
Definition run {R} (c : Export R) : JS W X R :=
  match c in Export R return JS W X R with
  | option_some value => ret (Option.some value)
  | option_none => ret Option.none
  | option_is_some option => ret (Option.is_some option)
  | option_is_none option => ret (Option.is_none option)
  | option_unwrap option with_default => ret (Option.unwrap option with_default)
  | option_map option predicate => Option.map option predicate
  | option_then option apply => Option.then_ option apply
  | option_all list => ret (Option.all list)
  | result_ok value => ret (Result.ok value)
  | result_err value => ret (Result.err value)
  | result_is_ok result => ret (Result.is_ok result)
  | result_is_err result => ret (Result.is_err result)
  | result_unwrap result with_default => ret (Result.unwrap result with_default)
  | result_unwrap_error result with_default =>
      ret (Result.unwrap_error result with_default)
  | result_map result apply => Result.map result apply
  | result_map_error result apply => Result.map_error result apply
  | result_replace result value => ret (Result.replace result value)
  | result_replace_error result value =>
      ret (Result.replace_error result value)
  | result_or left0 right0 => ret (Result.or left0 right0)
  | result_then result apply => Result.then_ result apply
  | result_all list => ret (Result.all list)
  end.

(** A caller-supplied function answers alike in two states of the caller:
    on every argument it ends the same way (same value returned, or same
    value thrown). *)
Definition answers_alike {A B} (f : Callback W X A B) (w1 w2 : W) : Prop :=
  forall v : A, fst (f v w1) = fst (f v w2).

(** The caller-supplied function of a call, if it takes one, answers alike
    in both states. *)
Definition same_functions {R} (c : Export R) (w1 w2 : W) : Prop :=
  match c with
  | option_map _ predicate => answers_alike predicate w1 w2
  | option_then _ apply => answers_alike apply w1 w2
  | result_map _ apply => answers_alike apply w1 w2
  | result_map_error _ apply => answers_alike apply w1 w2
  | result_then _ apply => answers_alike apply w1 w2
  | _ => True
  end.

End Exports.

(* ================================================================= *)
(** ** The caller's side *)

Section Caller.
Variables W X : Type.

(** What the caller sees of a finished call: how it ended, and the
    caller's own state.  The invocation count is left out. *)
Definition seen {A} (r : Completion X A * Realm W) : Completion X A * W :=
  (fst r, world (snd r)).

(** A function the caller writes as a lambda, [(v) => body], whose body
    may itself call functions and combinators.  Handed to a combinator it
    is a caller-supplied function like any other: what its body invokes is
    not the combinator's doing. *)
Definition lambda {T U} (body : T -> JS W X U) : Callback W X T U :=
  fun v w =>
    let (r, s) := body v {| calls := 0; world := w |} in (r, world s).

End Caller.

Section Shape.
Variables W X T U E : Type.

(** Whether an exported function has a function among its parameters. *)
Definition takes_function {R} (c : Export W X T U E R) : bool :=
  match c with
  | option_map _ _ _ | option_then _ _ _ | result_map _ _
  | result_map_error _ _ | result_then _ _ => true
  | _ => false
  end.

(** The one invocation a call makes, if it makes one, is of its function
    on the payload its first argument holds.  [same_answers] says that
    this invocation ends the same way in two states of the caller (and
    holds of a call that invokes nothing). *)
Definition same_answers {R} (c : Export W X T U E R) (w1 w2 : W) : Prop :=
  match c with
  | option_map _ (Option.Some v) predicate =>
      fst (predicate v w1) = fst (predicate v w2)
  | option_then _ (Option.Some v) apply => fst (apply v w1) = fst (apply v w2)
  | result_map (Result.Ok v) apply => fst (apply v w1) = fst (apply v w2)
  | result_map_error (Result.Err e) apply =>
      fst (apply e w1) = fst (apply e w2)
  | result_then (Result.Ok v) apply => fst (apply v w1) = fst (apply v w2)
  | _ => True
  end.

(** [threw c w x]: the call [c] holds a payload for its function, and the
    function, applied to that payload in the caller's state [w], throws
    [x]. *)
Definition threw {R} (c : Export W X T U E R) (w : W) (x : X) : Prop :=
  match c with
  | option_map _ (Option.Some v) predicate => fst (predicate v w) = Throw x
  | option_then _ (Option.Some v) apply => fst (apply v w) = Throw x
  | result_map (Result.Ok v) apply => fst (apply v w) = Throw x
  | result_map_error (Result.Err e) apply => fst (apply e w) = Throw x
  | result_then (Result.Ok v) apply => fst (apply v w) = Throw x
  | _ => False
  end.

End Shape.

(** A caller-supplied function with a memory: it adds to its argument a
    number it keeps in the caller's state, and increments that number,
    [let n = 1; (v) => v + n++]. *)
Definition running_total : Callback nat unit nat nat :=
  fun v w => (Normal (v + w), S w).


(* ================================================================= *)
(** ** Properties of src/option.ts *)

Module OptionSpec.
Import Option.

Section Fold.
Variable T : Type.
Implicit Types (list : Datatypes.list (Option T)) (vs acc : Datatypes.list T).

(** Once the accumulator is [None] it stays [None]. *)
Lemma fold_from_none list : fold_left all_step list None = None.
Proof.
  induction list as [|o rest IH]; simpl; [reflexivity|].
  destruct o; exact IH.
Qed.

(** From any accumulator, the fold over a list extends the accumulator by
    what [all] makes of that list alone. *)
Lemma fold_from_some list acc :
  fold_left all_step list (Some acc) =
  match all list with
  | Some vs => Some (acc ++ vs)
  | None => None
  end.
Proof.
  unfold all. revert acc.
  induction list as [|o rest IH] using rev_ind; intros acc.
  - simpl. now rewrite app_nil_r.
  - rewrite !fold_left_app. simpl. rewrite (IH acc).
    destruct (fold_left all_step rest (Some [])) as [vs|]; destruct o as [v|];
      simpl; try reflexivity.
    now rewrite app_assoc.
Qed.

Lemma all_cons_some (v : T) list :
  all (Some v :: list) =
  match all list with
  | Some vs => Some (v :: vs)
  | None => None
  end.
Proof. unfold all at 1. simpl. now rewrite fold_from_some. Qed.

Lemma all_cons_none list : all (None :: list) = None.
Proof. unfold all. simpl. apply fold_from_none. Qed.

Lemma all_of_values vs : all (List.map Some vs) = Some vs.
Proof.
  induction vs as [|v vs IH]; [reflexivity|].
  simpl. now rewrite all_cons_some, IH.
Qed.

Lemma all_with_none list : In None list -> all list = None.
Proof.
  induction list as [|o rest IH]; intros Hin; [destruct Hin|].
  destruct o as [v|].
  - destruct Hin as [Heq|Hin]; [discriminate|].
    now rewrite all_cons_some, (IH Hin).
  - apply all_cons_none.
Qed.

Lemma values_of_somes list :
  ~ In None list -> exists vs, list = List.map Some vs.
Proof.
  induction list as [|o rest IH]; intros Hno.
  - now exists [].
  - destruct o as [v|].
    + destruct IH as [vs Hvs]; [intros H; apply Hno; now right|].
      exists (v :: vs). simpl. now rewrite Hvs.
    + exfalso. apply Hno. now left.
Qed.

End Fold.

(** C2. [Option.all] of a list with a [None] among its elements is [None];
    of a list without one it is [Some] of the held values, in the order of
    the list; of the empty list it is [Some []]. *)
Theorem all_collects (T : Type) (list : Datatypes.list (Option T)) :
  (In None list -> all list = None) /\
  (~ In None list ->
     exists vs, list = List.map Some vs /\ all list = Some vs) /\
  (forall vs : Datatypes.list T, all (List.map Some vs) = Some vs) /\
  all (@nil (Option T)) = Some [].
Proof.
  repeat split.
  - apply all_with_none.
  - intros Hno. destruct (values_of_somes list Hno) as [vs ->].
    exists vs. split; [reflexivity | apply all_of_values].
  - apply all_of_values.
Qed.

Lemma all_collects_witness :
  all [Some 1; None; Some 3] = None /\
  (exists vs, [Some 1; Some 2; Some 3] = List.map Some vs /\
              all [Some 1; Some 2; Some 3] = Some vs) /\
  all [Some 1; Some 2; Some 3] = Some [1; 2; 3].
Proof.
  split; [|split].
  - apply (proj1 (all_collects [Some 1; None; Some 3])).
    simpl. right. left. reflexivity.
  - apply (proj1 (proj2 (all_collects [Some 1; Some 2; Some 3]))).
    simpl. intros [H|[H|[H|[]]]]; discriminate H.
  - exact (proj1 (proj2 (proj2 (all_collects (@nil (Option nat))))) [1; 2; 3]).
Defined.

(** C10. [Option.all] maps concatenation of inputs to concatenation of
    results: two [Some]s join their lists, and a [None] on either side
    makes the whole [None]. *)
Theorem all_app (T : Type) (xs ys : Datatypes.list (Option T)) :
  (forall vs ws, all xs = Some vs -> all ys = Some ws ->
                 all (xs ++ ys) = Some (vs ++ ws)) /\
  (all xs = None \/ all ys = None -> all (xs ++ ys) = None).
Proof.
  assert (Happ : all (xs ++ ys) =
                 match all xs with
                 | Some vs =>
                     match all ys with
                     | Some ws => Some (vs ++ ws)
                     | None => None
                     end
                 | None => None
                 end).
  { unfold all at 1. rewrite fold_left_app. fold (all xs).
    destruct (all xs) as [vs|].
    - apply fold_from_some.
    - apply fold_from_none. }
  split.
  - intros vs ws Hx Hy. now rewrite Happ, Hx, Hy.
  - intros [Hx|Hy]; rewrite Happ.
    + now rewrite Hx.
    + rewrite Hy. now destruct (all xs).
Qed.

Lemma all_app_witness :
  all ([Some 1; Some 2] ++ [Some 3]) = Some ([1; 2] ++ [3]) /\
  all ([Some 1; None] ++ [Some 3]) = None /\
  all ([Some 1] ++ [None; Some 3]) = None.
Proof.
  split; [|split].
  - apply (proj1 (all_app [Some 1; Some 2] [Some 3])); reflexivity.
  - apply (proj2 (all_app [Some 1; None] [Some 3])). left. reflexivity.
  - apply (proj2 (all_app [Some 1] [None; Some 3])). right. reflexivity.
Defined.

(** C7. [is_none] is the negation of [is_some]; a [some] passes the first
    test and fails the second, a [none] passes the second; every option
    passes exactly one of the two. *)
Theorem is_none_negates_is_some (T : Type) :
  (forall o : Option T, is_none o = negb (is_some o)) /\
  (forall v : T, is_some (some v) = true /\ is_none (some v) = false) /\
  is_none (@none T) = true /\
  (forall o : Option T, xorb (is_some o) (is_none o) = true) /\
  (forall o : Option T, (exists v, o = some v) \/ o = none).
Proof.
  repeat split.
  - intros [v|]; reflexivity.
  - intros [v|]; [left; now exists v | now right].
Qed.

(** C3. [Option.map] of [some v] invokes the function once, on [v], and
    returns [some] of what the function returned (for a function that only
    computes [f]: [some (f v)]); [Option.map] of [none] returns [none] and
    leaves the realm as it was, invocation count included, whatever the
    function is. *)
Theorem map_functor (W X T U : Type) :
  (forall (v : T) (f : T -> U) (s : Realm W),
      map (some v) (@pure_fn W X T U f) s =
      (Normal (some (f v)), {| calls := S (calls s); world := world s |})) /\
  (forall (v : T) (f : Callback W X T U) (s : Realm W) (u : U) (w' : W),
      f v (world s) = (Normal u, w') ->
      map (some v) f s =
      (Normal (some u), {| calls := S (calls s); world := w' |})) /\
  (forall (f : Callback W X T U) (s : Realm W),
      map none f s = (Normal none, s)).
Proof.
  split; [|split].
  - intros v f s. reflexivity.
  - intros v f s u w' Hf. simpl. unfold bind, invoke. now rewrite Hf.
  - intros f s. reflexivity.
Qed.

(** A function that bumps a counter kept by the caller, and one that
    raises: the first is seen to run once on [some], neither on [none]. *)
Lemma map_functor_witness :
  map (some 20) (fun v w => (@Normal unit nat (v + w), S w))
      {| calls := 0; world := 1 |} =
  (Normal (some 21), {| calls := 1; world := 2 |}) /\
  map (@none nat) (@raises nat unit nat nat tt) {| calls := 0; world := 1 |} =
  (Normal none, {| calls := 0; world := 1 |}).
Proof.
  split.
  - apply (proj1 (proj2 (map_functor nat unit nat nat))). reflexivity.
  - apply (proj2 (proj2 (map_functor nat unit nat nat))).
Defined.

(** C4. [Option.then] of [some v] invokes the function once, on [v], and
    returns the option the function returned as it is, [none] or [some],
    with no further wrapping; [Option.then] of [none] returns [none] and
    leaves the realm as it was, invocation count included, whatever the
    function is. *)
Theorem then_bind (W X T U : Type) :
  (forall (v : T) (f : T -> Option U) (s : Realm W),
      then_ (some v) (@pure_fn W X T (Option U) f) s =
      (Normal (f v), {| calls := S (calls s); world := world s |})) /\
  (forall (v : T) (f : Callback W X T (Option U)) (s : Realm W)
          (r : Option U) (w' : W),
      f v (world s) = (Normal r, w') ->
      then_ (some v) f s =
      (Normal r, {| calls := S (calls s); world := w' |})) /\
  (forall (f : Callback W X T (Option U)) (s : Realm W),
      then_ none f s = (Normal none, s)).
Proof.
  split; [|split].
  - intros v f s. reflexivity.
  - intros v f s r w' Hf. simpl. unfold invoke. now rewrite Hf.
  - intros f s. reflexivity.
Qed.

Lemma then_bind_witness :
  then_ (some 20) (fun v w => (@Normal unit (Option nat) none, S w))
        {| calls := 0; world := 1 |} =
  (Normal none, {| calls := 1; world := 2 |}) /\
  then_ (some 20) (fun v w => (@Normal unit (Option nat) (some (v + w)), w))
        {| calls := 0; world := 1 |} =
  (Normal (some 21), {| calls := 1; world := 1 |}) /\
  then_ (@none nat) (@raises nat unit nat (Option nat) tt)
        {| calls := 0; world := 1 |} =
  (Normal none, {| calls := 0; world := 1 |}).
Proof.
  split; [|split].
  - apply (proj1 (proj2 (then_bind nat unit nat nat))). reflexivity.
  - apply (proj1 (proj2 (then_bind nat unit nat nat))). reflexivity.
  - apply (proj2 (proj2 (then_bind nat unit nat nat))).
Defined.

End OptionSpec.

(* ================================================================= *)
(** ** Properties of src/result.ts *)

Module ResultSpec.
Import Result.

Section Fold.
Variables T E : Type.
Implicit Types (list post : Datatypes.list (Result T E)).
Implicit Types (vs pre acc : Datatypes.list T) (e : E).

(** An [Err] accumulator is handed on unchanged. *)
Lemma fold_from_err list e : fold_left all_step list (Err e) = Err e.
Proof. induction list as [|r rest IH]; simpl; [reflexivity | exact IH]. Qed.

(** A run of [Ok]s is appended to an [Ok] accumulator. *)
Lemma fold_oks vs acc list :
  fold_left all_step (List.map (@ok T E) vs ++ list) (Ok acc) =
  fold_left all_step list (Ok (acc ++ vs)).
Proof.
  revert acc. induction vs as [|v vs IH]; intros acc; simpl.
  - now rewrite app_nil_r.
  - rewrite IH. now rewrite <- app_assoc.
Qed.

Lemma all_first_err pre e post :
  all (List.map (@ok T E) pre ++ err e :: post) = err e.
Proof. unfold all. rewrite fold_oks. simpl. apply fold_from_err. Qed.

Lemma all_of_oks vs : all (List.map (@ok T E) vs) = ok vs.
Proof.
  unfold all. rewrite <- (app_nil_r (List.map (@ok T E) vs)), fold_oks. reflexivity.
Qed.

(** Every list is a run of [Ok]s, followed either by nothing or by an
    [Err] and a rest. *)
Lemma leading_oks list :
  (exists vs, list = List.map (@ok T E) vs) \/
  (exists pre e post, list = List.map (@ok T E) pre ++ err e :: post).
Proof.
  induction list as [|r rest IH].
  - left. now exists [].
  - destruct r as [v|e].
    + destruct IH as [[vs ->]|[pre [e [post ->]]]].
      * left. now exists (v :: vs).
      * right. now exists (v :: pre), e, post.
    + right. now exists [], e, rest.
Qed.

Lemma in_oks_is_ok vs (r : Result T E) :
  In r (List.map (@ok T E) vs) -> is_ok r = true.
Proof.
  intros Hin. apply in_map_iff in Hin. destruct Hin as [v [<- _]]. reflexivity.
Qed.

End Fold.

(** C1. [Result.all] of a list with an [Err] among its elements is the
    first [Err] of the list, whatever follows it; of a list of [Ok]s it is
    [Ok] of their values, in the order of the list; of the empty list it is
    [Ok []]. *)
Theorem all_first_error (T E : Type) (list : Datatypes.list (Result T E)) :
  (forall pre e post,
      list = List.map (@ok T E) pre ++ err e :: post -> all list = err e) /\
  ((exists r, In r list /\ is_err r = true) ->
     exists pre e post,
       list = List.map (@ok T E) pre ++ err e :: post /\ all list = err e) /\
  ((forall r, In r list -> is_ok r = true) ->
     exists vs, list = List.map (@ok T E) vs /\ all list = ok vs) /\
  all (@nil (Result T E)) = ok [].
Proof.
  split; [|split; [|split]].
  - intros pre e post ->. apply all_first_err.
  - intros [r [Hin Herr]].
    destruct (leading_oks list) as [[vs ->]|[pre [e [post ->]]]].
    + apply in_oks_is_ok in Hin. unfold is_err in Herr.
      rewrite Hin in Herr. discriminate Herr.
    + exists pre, e, post. split; [reflexivity | apply all_first_err].
  - intros Hok.
    destruct (leading_oks list) as [[vs ->]|[pre [e [post ->]]]].
    + exists vs. split; [reflexivity | apply all_of_oks].
    + assert (Habs : is_ok (@err T E e) = true).
      { apply Hok. apply in_or_app. right. now left. }
      discriminate Habs.
  - reflexivity.
Qed.

Lemma all_first_error_witness :
  all [ok 1; err "x"; ok 3; err "y"]%string = err "x"%string /\
  (exists pre e post,
      [ok 1; err "x"; ok 3]%string = List.map (@ok nat string) pre ++ err e :: post /\
      all [ok 1; err "x"; ok 3]%string = err e) /\
  (exists vs, [@ok nat string 1; ok 2; ok 3] = List.map (@ok nat string) vs /\
              all [@ok nat string 1; ok 2; ok 3] = ok vs).
Proof.
  split; [|split].
  - apply (proj1 (all_first_error [ok 1; err "x"; ok 3; err "y"]%string)
             [1] "x"%string [ok 3; err "y"]%string).
    reflexivity.
  - apply (proj1 (proj2 (all_first_error [ok 1; err "x"; ok 3]%string))).
    exists (err "x"%string). split; [simpl; auto | reflexivity].
  - apply (proj1 (proj2 (proj2
             (all_first_error [@ok nat string 1; ok 2; ok 3])))).
    intros r [<-|[<-|[<-|[]]]]; reflexivity.
Defined.

(** C5. [Result.or] returns its left argument when that is [Ok], and its
    right argument as it is otherwise, be the right one [Ok] or [Err]. *)
Theorem or_fallback (T E : Type) (left right : Result T E) :
  (is_ok left = true -> or left right = left) /\
  (is_ok left = false -> or left right = right) /\
  (forall v : T, or (ok v) right = ok v) /\
  (forall e : E, or (err e) right = right).
Proof.
  unfold or. repeat split.
  - intros ->. reflexivity.
  - intros ->. reflexivity.
Qed.

Lemma or_fallback_witness :
  or (@ok nat string 42) (ok 100) = ok 42 /\
  or (err "e"%string) (@ok nat string 100) = ok 100 /\
  or (@err nat string "e"%string) (err "f"%string) = err "f"%string.
Proof.
  split; [|split].
  - apply (proj1 (or_fallback (@ok nat string 42) (ok 100))). reflexivity.
  - apply (proj1 (proj2 (or_fallback (err "e"%string) (@ok nat string 100)))).
    reflexivity.
  - apply (proj1 (proj2 (or_fallback (@err nat string "e"%string)
                                     (err "f"%string)))).
    reflexivity.
Defined.

(** C6. [Result.unwrap_error] of [err e] is [e], and of [ok v] it is the
    default. *)
Theorem unwrap_error_spec (T E : Type) (d : E) :
  (forall e : E, unwrap_error (@err T E e) d = e) /\
  (forall v : T, unwrap_error (@ok T E v) d = d).
Proof. split; reflexivity. Qed.

(** C8. [Result.replace] of an [Ok] is [ok] of the replacement, whatever
    the [Ok] held; of an [Err] it is that [Err], payload untouched. *)
Theorem replace_spec (T E U : Type) (u : U) :
  (forall v : T, replace (@ok T E v) u = ok u) /\
  (forall e : E, replace (@err T E e) u = err e) /\
  (forall r : Result T E, is_ok r = true -> replace r u = ok u) /\
  (forall r : Result T E,
      is_err r = true -> unwrap_error (replace r u) = unwrap_error r).
Proof.
  repeat split.
  - intros [v|e] H; [reflexivity | discriminate H].
  - intros [v|e] H; [discriminate H | reflexivity].
Qed.

Lemma replace_spec_witness :
  replace (@ok nat string 1) "a"%string = ok "a"%string /\
  unwrap_error (replace (@err nat string "e"%string) "a"%string) "d"%string
  = "e"%string.
Proof.
  split.
  - apply (proj1 (proj2 (proj2 (replace_spec nat string "a"%string)))). reflexivity.
  - rewrite (proj2 (proj2 (proj2 (replace_spec nat string "a"%string)))
               (@err nat string "e"%string) eq_refl).
    reflexivity.
Defined.

End ResultSpec.

(* ================================================================= *)
(** ** Determinism of the exported surface *)

Section Determinism.
Variables W X : Type.

(** The completion of [f(v)] decides the completion of a combinator that
    wraps it. *)
Lemma invoke_alike (A B : Type) (f : Callback W X A B) (v : A)
    (s1 s2 : Realm W) :
  answers_alike f (world s1) (world s2) ->
  fst (invoke f v s1) = fst (invoke f v s2).
Proof.
  intros H. specialize (H v). unfold invoke.
  destruct (f v (world s1)), (f v (world s2)). exact H.
Qed.

Lemma bind_ret_alike (A B : Type) (m : JS W X A) (g : A -> B)
    (s1 s2 : Realm W) :
  fst (m s1) = fst (m s2) ->
  fst ((a <- m ;; ret (g a)) s1) = fst ((a <- m ;; ret (g a)) s2).
Proof.
  unfold bind, ret. destruct (m s1) as [r1 t1], (m s2) as [r2 t2]. simpl.
  intros ->. now destruct r2.
Qed.

End Determinism.

(** C9, as amended.  Two runs of an exported function of either module
    on the same arguments return the same output, in whatever states of
    the caller the two runs start, provided the caller-supplied function
    (if the call takes one) answers alike in those two states.  The
    proviso is as weak as can be: the two outputs are equal exactly when
    the call invokes nothing, or its one invocation ends the same way in
    both runs. *)
Theorem exports_deterministic (W X T U E R : Type)
    (c : Export W X T U E R) (s1 s2 : Realm W) :
  (same_functions c (world s1) (world s2) ->
   fst (run c s1) = fst (run c s2)) /\
  (fst (run c s1) = fst (run c s2) <->
   same_answers c (world s1) (world s2)).
Proof.
  split.
  - destruct c as
      [ v | | o | o | o d | o f | o f | l
      | v | e | r | r | r d | r d | r f | r f | r u | r u | a b | r f | l ];
      simpl; intros H; try reflexivity.
    + destruct o as [v|]; simpl; [|reflexivity].
      apply bind_ret_alike. now apply invoke_alike.
    + destruct o as [v|]; simpl; [|reflexivity]. now apply invoke_alike.
    + destruct r as [v|e]; simpl; [|reflexivity].
      apply bind_ret_alike. now apply invoke_alike.
    + destruct r as [v|e]; simpl; [reflexivity|].
      apply bind_ret_alike. now apply invoke_alike.
    + destruct r as [v|e]; simpl; [|reflexivity]. now apply invoke_alike.
  - destruct c as
      [ v | | o | o | o d | o f | o f | l
      | v | e | r | r | r d | r d | r f | r f | r u | r u | a b | r f | l ];
      simpl; try (split; [intros _; exact I | intros _; reflexivity]).
    + destruct o as [v|]; simpl; [|split; [intros _; exact I | reflexivity]].
      unfold bind, invoke, ret.
      destruct (f v (world s1)) as [[u1|x1] w1],
               (f v (world s2)) as [[u2|x2] w2];
        simpl; split; intros H; inversion H; reflexivity.
    + destruct o as [v|]; simpl; [|split; [intros _; exact I | reflexivity]].
      unfold invoke.
      destruct (f v (world s1)) as [c1 w1], (f v (world s2)) as [c2 w2].
      simpl. split; intros H; exact H.
    + destruct r as [v|e]; simpl; [|split; [intros _; exact I | reflexivity]].
      unfold bind, invoke, ret.
      destruct (f v (world s1)) as [[u1|x1] w1],
               (f v (world s2)) as [[u2|x2] w2];
        simpl; split; intros H; inversion H; reflexivity.
    + destruct r as [v|e]; simpl; [split; [intros _; exact I | reflexivity]|].
      unfold bind, invoke, ret.
      destruct (f e (world s1)) as [[u1|x1] w1],
               (f e (world s2)) as [[u2|x2] w2];
        simpl; split; intros H; inversion H; reflexivity.
    + destruct r as [v|e]; simpl; [|split; [intros _; exact I | reflexivity]].
      unfold invoke.
      destruct (f v (world s1)) as [c1 w1], (f v (world s2)) as [c2 w2].
      simpl. split; intros H; exact H.
Qed.

(** A function that counts its calls in the caller's state changes that
    state, yet answers alike everywhere: two runs from different states
    agree.  And two runs of [map] with [running_total] agree when started
    in states in which it answers the same on the held value. *)
Lemma exports_deterministic_witness :
  fst (run (option_map string (Option.some 20)
             (fun v w => (@Normal unit nat (v + 1), S w)))
           {| calls := 0; world := 0 |}) =
  fst (run (option_map string (Option.some 20)
             (fun v w => (@Normal unit nat (v + 1), S w)))
           {| calls := 5; world := 9 |}) /\
  fst (run (option_map string (Option.some 20) running_total)
         {| calls := 0; world := 1 |}) =
  fst (run (option_map string (Option.some 20) running_total)
         {| calls := 3; world := 1 |}).
Proof.
  split.
  - apply (proj1 (@exports_deterministic nat unit nat nat string _
             (option_map string (Option.some 20)
                (fun v w => (@Normal unit nat (v + 1), S w)))
             {| calls := 0; world := 0 |} {| calls := 5; world := 9 |})).
    simpl. intros v. reflexivity.
  - apply (proj2 (proj2 (@exports_deterministic nat unit nat nat string _
             (option_map string (Option.some 20) running_total)
             {| calls := 0; world := 1 |} {| calls := 3; world := 1 |}))).
    reflexivity.
Defined.

(** C9, as the claim has it, fails.  The same call of [map], with the same
    [some 20] and the same function [running_total], is run twice, the
    second run starting where the first one ended: the first returns
    [some 21], the second [some 22].  So it is not the case that any two
    runs of this call return the same output. *)
Lemma same_call_twice_differs :
  fst (run (option_map string (Option.some 20) running_total)
         {| calls := 0; world := 1 |})
  = Normal (Option.some 21) /\
  fst (run (option_map string (Option.some 20) running_total)
         (snd (run (option_map string (Option.some 20) running_total)
                 {| calls := 0; world := 1 |})))
  = Normal (Option.some 22) /\
  ~ (forall s1 s2 : Realm nat,
        fst (run (option_map string (Option.some 20) running_total) s1)
        = fst (run (option_map string (Option.some 20) running_total) s2)).
Proof.
  split; [reflexivity | split; [reflexivity |]].
  intros H.
  specialize (H {| calls := 0; world := 1 |} {| calls := 1; world := 2 |}).
  discriminate H.
Qed.

(* ================================================================= *)
(** ** Laws of src/option.ts *)

(** Runs a combinator by cases on what the caller's functions answer. *)
Ltac reduce_js :=
  repeat progress (unfold seen, lambda, bind, invoke, ret, pure_fn; simpl).

Ltac run_js :=
  reduce_js;
  repeat (match goal with
          | |- context [?f ?v ?w] =>
              is_var f;
              match type of (f v w) with
              | prod (Completion _ _) _ =>
                  let r := fresh "r" in
                  let w' := fresh "w'" in
                  destruct (f v w) as [[r|r] w']
              end
          end; reduce_js).

Module OptionLaws.
Import Option.

(** X1. An option is rebuilt from its tag test and its unwrapped value:
    [some] of the unwrapped value when [is_some], [none] otherwise,
    whatever default the unwrapping was given; and unwrapping a [some]
    never yields the default's place-holder but the held value. *)
Theorem rebuild_option (T : Type) (o : Option T) (d : T) :
  (if is_some o then some (unwrap o d) else none) = o /\
  (forall v, unwrap (some v) d = v) /\
  (is_none o = true -> unwrap o d = d).
Proof.
  repeat split.
  - destruct o; reflexivity.
  - destruct o; [discriminate | reflexivity].
Qed.

Lemma rebuild_option_witness : unwrap (@none nat) 7 = 7.
Proof. apply (proj2 (proj2 (rebuild_option (@none nat) 7))). reflexivity. Defined.

(** X2. [Option.map] obeys the functor laws as far as the caller can see:
    mapping the identity gives the option back and leaves the caller's
    state alone, and mapping [f] and then [g] is mapping the lambda
    [(v) => g(f(v))], also when [f] or [g] changes state or throws. *)
Theorem map_laws (W X T U V : Type) :
  (forall (o : Option T) (s : Realm W),
      seen (map o (@pure_fn W X T T (fun v => v)) s) = (Normal o, world s)) /\
  (forall (o : Option T) (f : Callback W X T U) (g : Callback W X U V)
          (s : Realm W),
      seen ((r <- map o f ;; map r g) s) =
      seen (map o (lambda (fun v => u <- invoke f v ;; invoke g u)) s)).
Proof.
  split.
  - intros [v|] s; reflexivity.
  - intros [v|] f g s; [|reflexivity]. simpl. run_js; reflexivity.
Qed.

(** X3. [Option.map] is [Option.then] with the function's result wrapped
    in [some]: the two calls end alike, in the same state and after the
    same number of invocations. *)
Theorem map_is_then (W X T U : Type) (o : Option T) (f : Callback W X T U)
    (s : Realm W) :
  map o f s = then_ o (lambda (fun v => u <- invoke f v ;; ret (some u))) s.
Proof.
  destruct o as [v|]; [|reflexivity]. simpl. run_js; reflexivity.
Qed.

(** X4. [Option.then] obeys the monad laws as far as the caller can see:
    chaining [some] gives the option back, and chaining [f] and then [g]
    is chaining the lambda [(v) => then(f(v), g)]. *)
Theorem then_laws (W X T U V : Type) :
  (forall (o : Option T) (s : Realm W),
      seen (then_ o (@pure_fn W X T (Option T) some) s)
      = (Normal o, world s)) /\
  (forall (o : Option T) (f : Callback W X T (Option U))
          (g : Callback W X U (Option V)) (s : Realm W),
      seen ((r <- then_ o f ;; then_ r g) s) =
      seen (then_ o (lambda (fun v => r <- invoke f v ;; then_ r g)) s)).
Proof.
  split.
  - intros [v|] s; reflexivity.
  - intros [v|] f g s; [|reflexivity]. simpl. run_js; try reflexivity.
    destruct r as [u|]; simpl; run_js; reflexivity.
Qed.

(** X5. What [Option.map] and [Option.then] can do to the tag: a [map]
    that returns keeps the tag of its argument; a [then] that returns a
    [some] was given a [some]; and either ends with a throw only when
    given a [some] on whose value the caller's function threw that very
    value. *)
Theorem map_then_tags (W X T U : Type) (o : Option T) (s : Realm W) :
  (forall (f : Callback W X T U) r s',
      map o f s = (Normal r, s') -> is_some r = is_some o) /\
  (forall (f : Callback W X T (Option U)) r s',
      then_ o f s = (Normal r, s') -> is_some r = true -> is_some o = true) /\
  (forall (f : Callback W X T U) x s',
      map o f s = (Throw x, s') ->
      exists v, o = some v /\ fst (f v (world s)) = Throw x) /\
  (forall (f : Callback W X T (Option U)) x s',
      then_ o f s = (Throw x, s') ->
      exists v, o = some v /\ fst (f v (world s)) = Throw x).
Proof.
  repeat split.
  - intros f r s'. destruct o as [v|]; simpl; run_js; intros H;
      inversion H; reflexivity.
  - intros f r s'. destruct o as [v|]; simpl; [reflexivity|].
    unfold ret. intros H. inversion H. subst r. intros Hs. discriminate Hs.
  - intros f x s'. destruct o as [v|]; simpl.
    + intros H. exists v. split; [reflexivity|]. revert H. run_js;
        intros H; inversion H; reflexivity.
    + unfold ret. intros H. discriminate H.
  - intros f x s'. destruct o as [v|]; simpl.
    + intros H. exists v. split; [reflexivity|]. revert H. run_js;
        intros H; inversion H; reflexivity.
    + unfold ret. intros H. discriminate H.
Qed.

Lemma map_then_tags_witness :
  is_some (some 21) = is_some (some 20) /\
  is_some (some 20) = true /\
  (exists v, some 20 = some v /\
             fst (@raises nat string nat nat "boom"%string v 1)
             = Throw "boom"%string) /\
  (exists v, some 20 = some v /\
             fst (@raises nat string nat (Option nat) "boom"%string v 1)
             = Throw "boom"%string).
Proof.
  pose proof (@map_then_tags nat string nat nat (some 20)
                {| calls := 0; world := 1 |}) as [Hm [Ht [Hx Hy]]].
  split; [|split; [|split]].
  - apply (Hm (fun v w => (Normal (v + w), w)) (some 21)
              {| calls := 1; world := 1 |}).
    reflexivity.
  - apply (Ht (fun v w => (Normal (some (v + w)), w)) (some 21)
              {| calls := 1; world := 1 |}); reflexivity.
  - apply (Hx (raises "boom"%string) "boom"%string
              {| calls := 1; world := 1 |}).
    reflexivity.
  - apply (Hy (raises "boom"%string) "boom"%string
              {| calls := 1; world := 1 |}).
    reflexivity.
Defined.

Section AllInverse.
Variable T : Type.
Implicit Types (list : Datatypes.list (Option T)) (vs : Datatypes.list T).

Lemma all_some_inv list vs : all list = Some vs -> list = List.map Some vs.
Proof.
  revert vs. induction list as [|o rest IH]; intros vs.
  - intros H. inversion H. reflexivity.
  - destruct o as [v|].
    + rewrite OptionSpec.all_cons_some.
      destruct (all rest) as [ws|]; [|discriminate].
      intros H. inversion H. simpl. now rewrite <- (IH ws eq_refl).
    + rewrite OptionSpec.all_cons_none. discriminate.
Qed.

Lemma is_some_all list : is_some (all list) = forallb is_some list.
Proof.
  induction list as [|o rest IH]; [reflexivity|].
  destruct o as [v|].
  - rewrite OptionSpec.all_cons_some. simpl. rewrite <- IH.
    now destruct (all rest).
  - now rewrite OptionSpec.all_cons_none.
Qed.

End AllInverse.

(** X6. [Option.all] and wrapping every value in [some] are inverse to
    each other: [all list] is [some vs] exactly when [list] is [vs] with
    each value wrapped, so [vs] is as long as [list]; and [all list] is a
    [some] exactly when every element is. *)
Theorem all_inverts_somes (T : Type) (list : Datatypes.list (Option T))
    (vs : Datatypes.list T) :
  (all list = some vs <-> list = List.map some vs) /\
  (all list = some vs -> List.length vs = List.length list) /\
  is_some (all list) = forallb is_some list.
Proof.
  split; [|split].
  - split.
    + apply all_some_inv.
    + intros ->. apply OptionSpec.all_of_values.
  - intros H. apply all_some_inv in H. subst list.
    symmetry. apply length_map.
  - apply is_some_all.
Qed.

Lemma all_inverts_somes_witness :
  [some 1; some 2] = List.map some [1; 2] /\
  List.length [1; 2] = List.length [some 1; some 2].
Proof.
  split.
  - apply (proj1 (proj1 (all_inverts_somes [some 1; some 2] [1; 2]))).
    reflexivity.
  - apply (proj1 (proj2 (all_inverts_somes [some 1; some 2] [1; 2]))).
    reflexivity.
Defined.

End OptionLaws.

(* ================================================================= *)
(** ** Laws of src/result.ts *)

Module ResultLaws.
Import Result.

(** X7. A result is rebuilt from its tag test and its two unwrapped
    values, whatever defaults the unwrappings were given; the two tag
    tests are each other's negation; and on the side a result is not on,
    unwrapping yields the default. *)
Theorem rebuild_result (T E : Type) (r : Result T E) (d : T) (e : E) :
  (if is_ok r then ok (unwrap r d) else err (unwrap_error r e)) = r /\
  is_err r = negb (is_ok r) /\
  xorb (is_ok r) (is_err r) = true /\
  (is_ok r = true -> unwrap_error r e = e) /\
  (is_err r = true -> unwrap r d = d).
Proof.
  destruct r as [v|x]; repeat split; intros H; discriminate H.
Qed.

Lemma rebuild_result_witness :
  unwrap_error (@ok nat string 42) "default"%string = "default"%string /\
  unwrap (@err nat string "error"%string) 0 = 0.
Proof.
  split.
  - apply (proj1 (proj2 (proj2 (proj2
             (rebuild_result (@ok nat string 42) 0 "default"%string))))).
    reflexivity.
  - apply (proj2 (proj2 (proj2 (proj2
             (rebuild_result (@err nat string "error"%string) 0
                "default"%string))))).
    reflexivity.
Defined.

(** X8. [Result.map] of [ok v] invokes the function once, on [v]: what the
    function returns comes back wrapped in [ok], what it throws is thrown
    on; [Result.map] of [err e] returns [err e] and leaves the realm as it
    was, invocation count included, whatever the function is. *)
Theorem map_ok_only (W X T E U : Type) :
  (forall (v : T) (f : Callback W X T U) (s : Realm W) (u : U) (w' : W),
      f v (world s) = (Normal u, w') ->
      map (@ok T E v) f s =
      (Normal (ok u), {| calls := S (calls s); world := w' |})) /\
  (forall (v : T) (f : Callback W X T U) (s : Realm W) (x : X) (w' : W),
      f v (world s) = (Throw x, w') ->
      map (@ok T E v) f s =
      (Throw x, {| calls := S (calls s); world := w' |})) /\
  (forall (e : E) (f : Callback W X T U) (s : Realm W),
      map (@err T E e) f s = (Normal (err e), s)).
Proof.
  split; [|split].
  - intros v f s u w' Hf. simpl. unfold bind, invoke. now rewrite Hf.
  - intros v f s x w' Hf. simpl. unfold bind, invoke. now rewrite Hf.
  - reflexivity.
Qed.

Lemma map_ok_only_witness :
  map (@ok nat string 42) (fun v w => (@Normal unit nat (v * 2), S w))
      {| calls := 0; world := 1 |} =
  (Normal (ok 84), {| calls := 1; world := 2 |}) /\
  map (@ok nat string 42) (@raises nat unit nat nat tt)
      {| calls := 0; world := 1 |} =
  (Throw tt, {| calls := 1; world := 1 |}).
Proof.
  split.
  - apply (proj1 (map_ok_only nat unit nat string nat)). reflexivity.
  - apply (proj1 (proj2 (map_ok_only nat unit nat string nat))). reflexivity.
Defined.

(** X9. [Result.map_error] of [err e] invokes the function once, on [e]:
    what the function returns comes back wrapped in [err], what it throws
    is thrown on; [Result.map_error] of [ok v] returns [ok v] and leaves
    the realm as it was, invocation count included. *)
Theorem map_error_err_only (W X T E U : Type) :
  (forall (e : E) (f : Callback W X E U) (s : Realm W) (u : U) (w' : W),
      f e (world s) = (Normal u, w') ->
      map_error (@err T E e) f s =
      (Normal (err u), {| calls := S (calls s); world := w' |})) /\
  (forall (e : E) (f : Callback W X E U) (s : Realm W) (x : X) (w' : W),
      f e (world s) = (Throw x, w') ->
      map_error (@err T E e) f s =
      (Throw x, {| calls := S (calls s); world := w' |})) /\
  (forall (v : T) (f : Callback W X E U) (s : Realm W),
      map_error (@ok T E v) f s = (Normal (ok v), s)).
Proof.
  split; [|split].
  - intros e f s u w' Hf. simpl. unfold bind, invoke. now rewrite Hf.
  - intros e f s x w' Hf. simpl. unfold bind, invoke. now rewrite Hf.
  - reflexivity.
Qed.

Lemma map_error_err_only_witness :
  map_error (@err nat nat 3) (fun e w => (@Normal unit nat (e + 1), S w))
      {| calls := 0; world := 1 |} =
  (Normal (err 4), {| calls := 1; world := 2 |}) /\
  map_error (@err nat nat 3) (@raises nat unit nat nat tt)
      {| calls := 0; world := 1 |} =
  (Throw tt, {| calls := 1; world := 1 |}).
Proof.
  split.
  - apply (proj1 (map_error_err_only nat unit nat nat nat)). reflexivity.
  - apply (proj1 (proj2 (map_error_err_only nat unit nat nat nat))).
    reflexivity.
Defined.

(** X10. [Result.then] of [ok v] invokes the function once, on [v], and
    returns the result the function returned as it is, [ok] or [err],
    or throws what it threw; [Result.then] of [err e] returns [err e] and
    leaves the realm as it was, invocation count included. *)
Theorem then_ok_only (W X T U E : Type) :
  (forall (v : T) (f : Callback W X T (Result U E)) (s : Realm W)
          (c : Completion X (Result U E)) (w' : W),
      f v (world s) = (c, w') ->
      then_ (ok v) f s = (c, {| calls := S (calls s); world := w' |})) /\
  (forall (e : E) (f : Callback W X T (Result U E)) (s : Realm W),
      then_ (err e) f s = (Normal (err e), s)).
Proof.
  split.
  - intros v f s c w' Hf. simpl. unfold invoke. now rewrite Hf.
  - reflexivity.
Qed.

Lemma then_ok_only_witness :
  then_ (@ok nat string 42)
        (fun v w => (@Normal unit _ (@err nat string "new error"%string), w))
        {| calls := 0; world := 1 |} =
  (Normal (err "new error"%string), {| calls := 1; world := 1 |}).
Proof.
  apply (proj1 (then_ok_only nat unit nat nat string)). reflexivity.
Defined.

(** X11. [Result.map] and [Result.map_error] work on opposite sides and
    so commute: in either order the two calls end alike, in the same
    state, and exactly one of the two functions has been invoked, once. *)
Theorem map_map_error_commute (W X T E U F : Type) (r : Result T E)
    (f : Callback W X T U) (g : Callback W X E F) (s : Realm W) :
  (r' <- map r f ;; map_error r' g) s = (r' <- map_error r g ;; map r' f) s /\
  calls (snd ((r' <- map r f ;; map_error r' g) s)) = S (calls s).
Proof.
  destruct r as [v|e]; simpl; run_js; split; reflexivity.
Qed.

(** X12. [Result.replace] is [Result.map] with a function that ignores
    its argument, and [Result.replace_error] is [Result.map_error] with
    one, as far as the caller can see. *)
Theorem replace_as_map (W X T E U : Type) (r : Result T E) (u : U)
    (s : Realm W) :
  seen (map r (@pure_fn W X T U (fun _ => u)) s)
  = (Normal (replace r u), world s) /\
  seen (map_error r (@pure_fn W X E U (fun _ => u)) s)
  = (Normal (replace_error r u), world s).
Proof. destruct r as [v|e]; split; reflexivity. Qed.

(** X13. Replacing keeps the tag; a later replacement of the same side
    overrides an earlier one; replacements of the two sides commute; and
    after both, nothing of the original payload is left. *)
Theorem replace_algebra (T E U V : Type) (r : Result T E) (u : U) (v : V) :
  is_ok (replace r u) = is_ok r /\
  is_ok (replace_error r u) = is_ok r /\
  replace (replace r u) v = replace r v /\
  replace_error (replace_error r u) v = replace_error r v /\
  replace_error (replace r u) v = replace (replace_error r v) u /\
  replace_error (replace r u) v = (if is_ok r then ok u else err v).
Proof. destruct r as [t|e]; repeat split. Qed.

(** X14. [Result.or] is associative and idempotent; it is [Ok] exactly
    when one of its arguments is; unwrapping it falls back from left to
    right to the default; and of two [Err]s it keeps the right one. *)
Theorem or_algebra (T E : Type) (a b c : Result T E) (d : T) (x : E) :
  or (or a b) c = or a (or b c) /\
  or a a = a /\
  is_ok (or a b) = is_ok a || is_ok b /\
  unwrap (or a b) d = unwrap a (unwrap b d) /\
  unwrap_error (or a b) x = (if is_ok a then x else unwrap_error b x).
Proof. destruct a as [v|e]; destruct b as [v'|e']; repeat split. Qed.

Section Fold.
Variables T E : Type.
Implicit Types (list xs ys : Datatypes.list (Result T E)).
Implicit Types (vs acc : Datatypes.list T) (e : E).

(** From an [Ok] accumulator, the fold over a list extends the
    accumulator by what [all] makes of that list alone. *)
Lemma fold_from_ok list acc :
  fold_left all_step list (Ok acc) =
  match all list with
  | Ok vs => Ok (acc ++ vs)
  | Err e => Err e
  end.
Proof.
  destruct (ResultSpec.leading_oks list) as [[vs ->]|[pre [e [post ->]]]].
  - rewrite ResultSpec.all_of_oks.
    rewrite <- (app_nil_r (List.map (@ok T E) vs)), ResultSpec.fold_oks.
    reflexivity.
  - rewrite ResultSpec.all_first_err, ResultSpec.fold_oks. simpl.
    apply ResultSpec.fold_from_err.
Qed.

Lemma all_ok_inv list vs : all list = Ok vs -> list = List.map (@ok T E) vs.
Proof.
  destruct (ResultSpec.leading_oks list) as [[ws ->]|[pre [e [post ->]]]].
  - rewrite ResultSpec.all_of_oks. intros H. inversion H. reflexivity.
  - rewrite ResultSpec.all_first_err. discriminate.
Qed.

Lemma all_err_inv list e :
  all list = Err e ->
  exists pre post, list = List.map (@ok T E) pre ++ err e :: post.
Proof.
  destruct (ResultSpec.leading_oks list) as [[ws ->]|[pre [e' [post ->]]]].
  - rewrite ResultSpec.all_of_oks. discriminate.
  - rewrite ResultSpec.all_first_err. intros H. inversion H.
    now exists pre, post.
Qed.

Lemma is_ok_all list : is_ok (all list) = forallb is_ok list.
Proof.
  destruct (ResultSpec.leading_oks list) as [[ws ->]|[pre [e [post ->]]]].
  - rewrite ResultSpec.all_of_oks. symmetry. apply forallb_forall.
    intros r Hin. exact (ResultSpec.in_oks_is_ok ws r Hin).
  - rewrite ResultSpec.all_first_err, forallb_app. simpl.
    symmetry. apply andb_false_r.
Qed.

End Fold.

(** X15. [Result.all] of a concatenation is decided from left to right:
    an [Err] of the left part wins, then an [Err] of the right part, and
    two [Ok]s join their lists. *)
Theorem all_concat (T E : Type) (xs ys : Datatypes.list (Result T E)) :
  all (xs ++ ys) =
  match all xs with
  | Err e => Err e
  | Ok vs =>
      match all ys with
      | Err e => Err e
      | Ok ws => Ok (vs ++ ws)
      end
  end.
Proof.
  unfold all at 1. rewrite fold_left_app. fold (all xs).
  destruct (all xs) as [vs|e].
  - apply fold_from_ok.
  - apply ResultSpec.fold_from_err.
Qed.

(** X16. [Result.all] and wrapping every value in [ok] are inverse to
    each other: [all list] is [ok vs] exactly when [list] is [vs] with
    each value wrapped, so [vs] is as long as [list]; [all list] is
    [err e] exactly when [list] is a run of [ok]s followed by [err e] and
    anything; and [all list] is [Ok] exactly when every element is. *)
Theorem all_inverts_oks (T E : Type) (list : Datatypes.list (Result T E))
    (vs : Datatypes.list T) (e : E) :
  (all list = ok vs <-> list = List.map (@ok T E) vs) /\
  (all list = ok vs -> List.length vs = List.length list) /\
  (all list = err e <->
     exists pre post, list = List.map (@ok T E) pre ++ err e :: post) /\
  is_ok (all list) = forallb is_ok list.
Proof.
  split; [|split; [|split]].
  - split.
    + apply all_ok_inv.
    + intros ->. apply ResultSpec.all_of_oks.
  - intros H. apply all_ok_inv in H. subst list. symmetry. apply length_map.
  - split.
    + apply all_err_inv.
    + intros [pre [post ->]]. apply ResultSpec.all_first_err.
  - apply is_ok_all.
Qed.

Lemma all_inverts_oks_witness :
  [@ok nat string 1; ok 2] = List.map (@ok nat string) [1; 2] /\
  List.length [1; 2] = List.length [@ok nat string 1; ok 2] /\
  (exists pre post,
      [ok 1; err "x"; ok 3]%string
      = List.map (@ok nat string) pre ++ err "x"%string :: post).
Proof.
  split; [|split].
  - apply (proj1 (proj1 (all_inverts_oks [@ok nat string 1; ok 2] [1; 2]
                           "x"%string))).
    reflexivity.
  - apply (proj1 (proj2 (all_inverts_oks [@ok nat string 1; ok 2] [1; 2]
                           "x"%string))).
    reflexivity.
  - apply (proj1 (proj1 (proj2 (proj2
             (all_inverts_oks [ok 1; err "x"; ok 3]%string [] "x"%string))))).
    reflexivity.
Defined.

(** X17. [Result.then] obeys the monad laws as far as the caller can
    see: chaining [ok] gives the result back, and chaining [f] and then
    [g] is chaining the lambda [(v) => then(f(v), g)]. *)
Theorem result_then_laws (W X T U V E : Type) :
  (forall (r : Result T E) (s : Realm W),
      seen (then_ r (@pure_fn W X T (Result T E) ok) s)
      = (Normal r, world s)) /\
  (forall (r : Result T E) (f : Callback W X T (Result U E))
          (g : Callback W X U (Result V E)) (s : Realm W),
      seen ((r' <- then_ r f ;; then_ r' g) s) =
      seen (then_ r (lambda (fun v => r' <- invoke f v ;; then_ r' g)) s)).
Proof.
  split.
  - intros [v|e] s; reflexivity.
  - intros [v|e] f g s; [|reflexivity]. simpl. run_js; try reflexivity.
    destruct r as [u|e]; simpl; run_js; reflexivity.
Qed.

(** X18. [Result.map] obeys the functor laws as far as the caller can
    see, and is [Result.then] with the function's result wrapped in [ok]
    (there the invocation counts agree as well). *)
Theorem result_map_laws (W X T U V E : Type) :
  (forall (r : Result T E) (s : Realm W),
      seen (map r (@pure_fn W X T T (fun v => v)) s) = (Normal r, world s)) /\
  (forall (r : Result T E) (f : Callback W X T U) (g : Callback W X U V)
          (s : Realm W),
      seen ((r' <- map r f ;; map r' g) s) =
      seen (map r (lambda (fun v => u <- invoke f v ;; invoke g u)) s)) /\
  (forall (r : Result T E) (f : Callback W X T U) (s : Realm W),
      map r f s =
      then_ r (lambda (fun v => u <- invoke f v ;; ret (@ok U E u))) s).
Proof.
  split; [|split].
  - intros [v|e] s; reflexivity.
  - intros [v|e] f g s; [|reflexivity]. simpl. run_js; reflexivity.
  - intros [v|e] f s; [|reflexivity]. simpl. run_js; reflexivity.
Qed.

(** X19. [Result.map_error] obeys the functor laws on the error side, as
    far as the caller can see. *)
Theorem result_map_error_laws (W X T E F G : Type) :
  (forall (r : Result T E) (s : Realm W),
      seen (map_error r (@pure_fn W X E E (fun e => e)) s)
      = (Normal r, world s)) /\
  (forall (r : Result T E) (f : Callback W X E F) (g : Callback W X F G)
          (s : Realm W),
      seen ((r' <- map_error r f ;; map_error r' g) s) =
      seen (map_error r (lambda (fun e => u <- invoke f e ;; invoke g u)) s)).
Proof.
  split.
  - intros [v|e] s; reflexivity.
  - intros [v|e] f g s; [reflexivity|]. simpl. run_js; reflexivity.
Qed.

End ResultLaws.

(* ================================================================= *)
(** ** What no exported function does *)

(** X20. A call of any exported function invokes a caller-supplied
    function at most once; if it invokes none, it leaves the realm as it
    was; a function without a function parameter returns normally with
    the realm untouched; and a call ends with a throw of [x] exactly when
    it holds a payload for its function and the function throws [x] on
    that payload, in which case the function has been invoked once. *)
Theorem exports_invoke_at_most_once (W X T U E R : Type)
    (c : Export W X T U E R) (s : Realm W) :
  (calls (snd (run c s)) = calls s \/ calls (snd (run c s)) = S (calls s)) /\
  (calls (snd (run c s)) = calls s -> snd (run c s) = s) /\
  (takes_function c = false -> exists r, run c s = (Normal r, s)) /\
  (forall x, fst (run c s) = Throw x <-> threw c (world s) x) /\
  (forall x, fst (run c s) = Throw x ->
             takes_function c = true /\ calls (snd (run c s)) = S (calls s)).
Proof.
  assert (Hn : forall n, S n = n -> False).
  { intros n H. now apply (n_Sn n). }
  destruct c as
    [ v | | o | o | o d | o f | o f | l
    | v | e | r | r | r d | r d | r f | r f | r u | r u | a b | r f | l ];
    simpl;
    try (split; [now left | split; [intros _; reflexivity | split;
           [intros _; eexists; reflexivity | split;
             [intros x; split; [intros H; discriminate H | intros []]
             | intros x H; discriminate H]]]]).
  - destruct o as [v|]; simpl; run_js;
      (split; [auto | split; [intros H; try reflexivity; now apply Hn in H
       | split; [discriminate | split;
           [intros x; split; intros H; inversion H; reflexivity
           | intros x H; inversion H; auto]]]]).
  - destruct o as [v|]; simpl; run_js;
      (split; [auto | split; [intros H; try reflexivity; now apply Hn in H
       | split; [discriminate | split;
           [intros x; split; intros H; inversion H; reflexivity
           | intros x H; inversion H; auto]]]]).
  - destruct r as [v|e]; simpl; run_js;
      (split; [auto | split; [intros H; try reflexivity; now apply Hn in H
       | split; [discriminate | split;
           [intros x; split; intros H; inversion H; reflexivity
           | intros x H; inversion H; auto]]]]).
  - destruct r as [v|e]; simpl; run_js;
      (split; [auto | split; [intros H; try reflexivity; now apply Hn in H
       | split; [discriminate | split;
           [intros x; split; intros H; inversion H; reflexivity
           | intros x H; inversion H; auto]]]]).
  - destruct r as [v|e]; simpl; run_js;
      (split; [auto | split; [intros H; try reflexivity; now apply Hn in H
       | split; [discriminate | split;
           [intros x; split; intros H; inversion H; reflexivity
           | intros x H; inversion H; auto]]]]).
Qed.

Lemma exports_invoke_at_most_once_witness :
  snd (run (option_map string (@Option.none nat)
              (@raises nat unit nat nat tt))
         {| calls := 4; world := 9 |}) = {| calls := 4; world := 9 |} /\
  (exists r,
      run (@result_all nat unit nat nat string [Result.ok 1; Result.ok 2])
        {| calls := 4; world := 9 |}
      = (Normal r, {| calls := 4; world := 9 |})) /\
  calls (snd (run (@result_map nat unit nat nat string (Result.ok 1)
                     (raises tt))
                {| calls := 4; world := 9 |})) = 5 /\
  fst (@raises nat unit nat nat tt 1 9) = Throw tt /\
  fst (run (@result_map nat unit nat nat string (Result.ok 1) (raises tt))
         {| calls := 4; world := 9 |}) = Throw tt.
Proof.
  split; [|split; [|split; [|split]]].
  - apply (proj1 (proj2 (exports_invoke_at_most_once
             (option_map string (@Option.none nat)
                (@raises nat unit nat nat tt))
             {| calls := 4; world := 9 |}))).
    reflexivity.
  - apply (proj1 (proj2 (proj2 (exports_invoke_at_most_once
             (@result_all nat unit nat nat string [Result.ok 1; Result.ok 2])
             {| calls := 4; world := 9 |})))).
    reflexivity.
  - apply (proj2 (proj2 (proj2 (proj2 (exports_invoke_at_most_once
             (@result_map nat unit nat nat string (Result.ok 1) (raises tt))
             {| calls := 4; world := 9 |})))) tt).
    reflexivity.
  - apply (proj1 (proj1 (proj2 (proj2 (proj2 (exports_invoke_at_most_once
             (@result_map nat unit nat nat string (Result.ok 1) (raises tt))
             {| calls := 4; world := 9 |})))) tt)).
    reflexivity.
  - apply (proj2 (proj1 (proj2 (proj2 (proj2 (exports_invoke_at_most_once
             (@result_map nat unit nat nat string (Result.ok 1) (raises tt))
             {| calls := 4; world := 9 |})))) tt)).
    reflexivity.
Defined.

(* ================================================================= *)
(** ** The cases of the repository's test suite, evaluated *)

Module Tests.

Example option_all_some :
  Option.all [Option.some 1; Option.some 2; Option.some 3]
  = Option.some [1; 2; 3].
Proof. reflexivity. Qed.

Example option_all_any_none :
  Option.is_none (Option.all [Option.some 1; Option.none; Option.some 3])
  = true.
Proof. reflexivity. Qed.

Example option_map_doubles :
  fst (Option.map (Option.some 42) (@pure_fn unit unit _ _ (fun x => x * 2))
         {| calls := 0; world := tt |})
  = Normal (Option.some 84).
Proof. reflexivity. Qed.

Example option_then_to_none :
  fst (Option.then_ (Option.some 42)
         (@pure_fn unit unit _ _ (fun _ => @Option.none nat))
         {| calls := 0; world := tt |})
  = Normal Option.none.
Proof. reflexivity. Qed.

Example result_all_first_err :
  Result.all [Result.ok 1; Result.err "error"%string; Result.ok 3]
  = Result.err "error"%string.
Proof. reflexivity. Qed.

Example result_or_second :
  Result.or (Result.err "error"%string) (@Result.ok nat string 100)
  = Result.ok 100.
Proof. reflexivity. Qed.

Example result_map_keeps_err :
  fst (Result.map (@Result.err nat string "error"%string)
         (@pure_fn unit unit _ _ (fun x => x * 2))
         {| calls := 0; world := tt |})
  = Normal (Result.err "error"%string).
Proof. reflexivity. Qed.

Example result_replace_error_keeps_ok :
  Result.replace_error (@Result.ok nat string 42) "new error"%string
  = Result.ok 42.
Proof. reflexivity. Qed.

End Tests.
